(** * backend/server.py: common repeated words of two uploaded PDF files

    A shallow embedding of [src/backend/server.py] and the proofs of its
    specification.

    - Python [str] is a sequence of Unicode code points: [pystr := list N].
    - Python [dict] and [Counter] are finite maps with extensional equality:
      stdpp's [gmap]; counts are natural numbers.
    - What the interpreter's Unicode database decides ([str.lower], the
      classes behind [\w], [\s] and [str.split]) is the class [Unicode]:
      fixed on the ASCII range, left open beyond it.
    - Exceptions are values of [exn]; a call that may raise returns
      [result].
    - The upload folder is a finite map from paths to file contents, passed
      through the request handler explicitly.  A path names a file as it is
      written: two different paths are two different files (POSIX paths,
      no links, no [.] or [..] resolved), [os.remove] fails on a missing
      file only, and whether [open] succeeds is up to the host; a write or
      a close that fails after [open] succeeded is not part of the model.
      What is proved of the handler beyond its two faults is therefore
      stated for the requests that it answers, or for what happens before
      the first file is opened. *)

From Stdlib Require Import NArith Ascii String List Lia.
From stdpp Require Import base option list gmap fin_maps strings.

Local Open Scope N_scope.
Local Open Scope nat_scope.

(** ** Strings *)

Abbreviation codepoint := N.
Abbreviation pystr := (list codepoint).

(** A string literal of the source, as its code points. *)
Definition str (s : string) : pystr :=
  N_of_ascii <$> list_ascii_of_string s.

(** ASCII behaviour of the Unicode database. *)
Definition ascii_lower (c : codepoint) : codepoint :=
  if ((65 <=? c) && (c <=? 90))%N then (c + 32)%N else c.

Definition ascii_isalnum (c : codepoint) : bool :=
  ((48 <=? c) && (c <=? 57) || (65 <=? c) && (c <=? 90)
   || (97 <=? c) && (c <=? 122))%N.

Definition ascii_isspace (c : codepoint) : bool :=
  ((9 <=? c) && (c <=? 13) || (28 <=? c) && (c <=? 32))%N.

Definition is_ascii (c : codepoint) : Prop := (c < 128)%N.

(** The part of the Python runtime that [count_repeated_words] and
    [extract_text] rely on.  [str_lower] is [str.lower()], [isalnum] is the
    alphanumeric class inside the regular expression class [\w], [isspace]
    is the whitespace class shared by [\s] and by [str.split()].  On ASCII
    input they are the functions above; elsewhere they are whatever the
    Unicode database of the interpreter says. *)
Class Unicode := {
  str_lower : pystr → pystr;
  isalnum : codepoint → bool;
  isspace : codepoint → bool;
  str_lower_ascii : ∀ s, Forall is_ascii s → str_lower s = ascii_lower <$> s;
  isalnum_ascii : ∀ c, is_ascii c → isalnum c = ascii_isalnum c;
  isspace_ascii : ∀ c, is_ascii c → isspace c = ascii_isspace c
}.

(** The runtime that knows ASCII only: no other code point is a letter, a
    digit or a space, and none has a lowercase form. *)
Program Instance ascii_only : Unicode := {|
  str_lower := fmap ascii_lower;
  isalnum := ascii_isalnum;
  isspace := ascii_isspace
|}.
Solve All Obligations with done.

Section text.
Context `{U : Unicode}.

(** [\w]: alphanumeric or underscore. *)
Definition re_word (c : codepoint) : bool := isalnum c || (c =? 95)%N.

(** [\s]. *)
Definition re_space (c : codepoint) : bool := isspace c.

(** The character class [[^\w\s]]. *)
Definition not_word_nor_space (c : codepoint) : bool :=
  negb (re_word c || re_space c).

(** [re.sub(pattern, repl, s)] for a pattern that is one character class:
    scanning left to right, each matching character is replaced by [repl]
    and every other character is copied. *)
Fixpoint re_sub (class : codepoint → bool) (repl s : pystr) : pystr :=
  match s with
  | [] => []
  | c :: s' =>
    if class c then repl ++ re_sub class repl s'
    else c :: re_sub class repl s'
  end.

(** [s.split()]: [tok] is the word being read, most recent character
    first; a whitespace character ends it, and an empty [tok] yields
    nothing. *)
Definition emit (tok : pystr) : list pystr :=
  match tok with [] => [] | _ => [rev tok] end.

Fixpoint split_from (tok s : pystr) : list pystr :=
  match s with
  | [] => emit tok
  | c :: s' =>
    if isspace c then emit tok ++ split_from [] s'
    else split_from (c :: tok) s'
  end.

Definition str_split (s : pystr) : list pystr := split_from [] s.

(** [d.get(key, default)]. *)
Definition dict_get (d : gmap pystr nat) (key : pystr) (default : nat) : nat :=
  match d !! key with Some v => v | None => default end.

(** [Counter(words)]: for each element in turn,
    [self[elem] = self.get(elem, 0) + 1]. *)
Definition Counter_add (counter : gmap pystr nat) (elem : pystr)
  : gmap pystr nat :=
  <[elem := dict_get counter elem 0 + 1]> counter.

Definition Counter (words : list pystr) : gmap pystr nat :=
  foldl Counter_add ∅ words.

(** The words of a text, as [count_repeated_words] sees them. *)
Definition words_of (text : pystr) : list pystr :=
  let cleaned := re_sub not_word_nor_space [] (str_lower text) in
  str_split cleaned.

(** [count_repeated_words(text)]. *)
Definition count_repeated_words (text : pystr) : gmap pystr nat :=
  let cleaned := re_sub not_word_nor_space [] (str_lower text) in
  let words := str_split cleaned in
  let counter := Counter words in
  let repeated := filter (λ '(word, count), 1 < count) counter in
  repeated.

(** [count_common_repeated_words(text1, text2)]: the comprehension runs over
    the keys of [repeated1] and keeps those that are keys of [repeated2]. *)
Definition count_common_repeated_words (text1 text2 : pystr)
  : gmap pystr nat :=
  let repeated1 := count_repeated_words text1 in
  let repeated2 := count_repeated_words text2 in
  let common :=
    map_imap (λ word _,
      if decide (is_Some (repeated2 !! word))
      then Some (min (dict_get repeated1 word 0) (dict_get repeated2 word 0))
      else None) repeated1 in
  common.

End text.

(** ** The specification's description of the counter

    The same pipeline written after the words of the specification: lowercase,
    keep word characters and whitespace, split on runs of whitespace dropping
    empty tokens, tally each distinct token, keep the counts of at least 2. *)

Section spec.
Context `{U : Unicode}.

Definition word_character (c : codepoint) : Prop :=
  isalnum c = true ∨ c = 95%N.

Definition whitespace (c : codepoint) : Prop := isspace c = true.

#[global] Instance word_character_dec c : Decision (word_character c).
Proof. unfold word_character. apply _. Defined.

#[global] Instance whitespace_dec c : Decision (whitespace c).
Proof. unfold whitespace. apply _. Defined.

Definition spec_normalize (text : pystr) : pystr :=
  filter (λ c, word_character c ∨ whitespace c) (str_lower text).

(** Cutting at every whitespace character: between two adjacent ones, and
    before a leading or after a trailing one, lies an empty piece. *)
Fixpoint pieces (s : pystr) : list pystr :=
  match s with
  | [] => [[]]
  | c :: s' =>
    if isspace c then [] :: pieces s'
    else match pieces s' with
         | p :: ps => (c :: p) :: ps
         | [] => [[c]]
         end
  end.

Definition spec_tokens (s : pystr) : list pystr :=
  filter (λ p, p ≠ []) (pieces s).

(** Number of occurrences of [w] in a list of tokens. *)
Definition occurrences (w : pystr) (ws : list pystr) : nat :=
  length (filter (λ x, x = w) ws).

Definition spec_tally (ws : list pystr) : gmap pystr nat :=
  list_to_map ((λ w, (w, occurrences w ws)) <$> remove_dups ws).

Definition spec_count_repeated_words (text : pystr) : gmap pystr nat :=
  filter (λ kv, 2 ≤ kv.2) (spec_tally (spec_tokens (spec_normalize text))).

End spec.

(** ** Exceptions and the request's view of the machine *)

(** The exceptions that can reach the request handler, by where they are
    raised; each carries what [str(e)] returns. *)
Inductive exn :=
  | ValueError (msg : pystr)   (* raised by extract_text itself *)
  | ReaderError (msg : pystr)  (* anything raised inside PyPDF2 *)
  | OSError (msg : pystr).     (* raised by open() or os.remove() *)

Definition exn_str (e : exn) : pystr :=
  match e with ValueError msg | ReaderError msg | OSError msg => msg end.

Inductive result (A : Type) :=
  | Ok (a : A)
  | Raise (e : exn).
Arguments Ok {A} a.
Arguments Raise {A} e.

(** The files on disk, by path. *)
Abbreviation folder := (gmap pystr (list Byte.byte)).

(** What lies outside the repository: whether the operating system lets
    [open(path, "wb")] create the file ([Some msg]: it raises an [OSError]
    whose text is [msg]), and what PyPDF2 makes of the file at a path: the
    text of each page ([None] where [extract_text()] returns [None]), or the
    text of the exception raised by [PdfReader(path)] or by a page. *)
Class Host := {
  open_error : pystr → option pystr;
  read_pdf : folder → pystr → pystr + list (option pystr)
}.

(** A computation that reads and writes the files and may raise. *)
Definition io (A : Type) : Type := folder → folder * result A.

Instance io_ret : MRet io := λ A a fs, (fs, Ok a).

Instance io_bind : MBind io := λ A B k m fs,
  match m fs with
  | (fs', Ok a) => k a fs'
  | (fs', Raise e) => (fs', Raise e)
  end.

Definition raise {A} (e : exn) : io A := λ fs, (fs, Raise e).

(** [try: body / except Exception as e: handler(e)]. *)
Definition try_except {A} (body : io A) (handler : exn → io A) : io A :=
  λ fs, match body fs with
        | (fs', Ok a) => (fs', Ok a)
        | (fs', Raise e) => handler e fs'
        end.

(** ** Paths and files *)

(** [s.split(sep)] for a separator of one character. *)
Fixpoint str_split_on (sep : codepoint) (s : pystr) : list pystr :=
  match s with
  | [] => [[]]
  | c :: s' =>
    if decide (c = sep) then [] :: str_split_on sep s'
    else match str_split_on sep s' with
         | p :: ps => (c :: p) :: ps
         | [] => [[c]]
         end
  end.

(** [l[-1]] of a list that [split] returned, which is never empty. *)
Definition last_item (l : list pystr) : pystr := default [] (last l).

(** [sep.join(parts)]. *)
Fixpoint str_join (sep : pystr) (parts : list pystr) : pystr :=
  match parts with
  | [] => []
  | [p] => p
  | p :: ps => p ++ sep ++ str_join sep ps
  end.

(** [posixpath.join(a, b)]. *)
Definition os_path_join (a b : pystr) : pystr :=
  match b with
  | 47%N :: _ => b
  | _ => if decide (a = [] ∨ last a = Some 47%N) then a ++ b
         else a ++ 47%N :: b
  end.

(** The text of the [FileNotFoundError] for a path without quotes or
    escapes. *)
Definition enoent (path : pystr) : pystr :=
  str "[Errno 2] No such file or directory: '" ++ path ++ str "'".

Section server.
Context `{U : Unicode} `{H : Host}.

Definition UPLOAD_FOLDER : pystr := str "uploads".

(** [with open(path, "wb") as buffer: shutil.copyfileobj(src, buffer)]. *)
Definition save (path : pystr) (data : list Byte.byte) : io unit :=
  λ fs, match open_error path with
        | Some msg => (fs, Raise (OSError msg))
        | None => (<[path := data]> fs, Ok tt)
        end.

(** [os.remove(path)]. *)
Definition os_remove (path : pystr) : io unit :=
  λ fs, match fs !! path with
        | Some _ => (delete path fs, Ok tt)
        | None => (fs, Raise (OSError (enoent path)))
        end.

(** [PdfReader(file_path)] with the text of every page. *)
Definition PdfReader (file_path : pystr) : io (list (option pystr)) :=
  λ fs, match read_pdf fs file_path with
        | inl msg => (fs, Raise (ReaderError msg))
        | inr pages => (fs, Ok pages)
        end.

(** [x or ''], for [x] a string or [None]. *)
Definition or_empty (x : option pystr) : pystr :=
  match x with
  | Some (c :: t) => c :: t
  | _ => []
  end.

Definition unsupported (ext : pystr) : pystr :=
  str "Unsupported file type: " ++ ext
  ++ str ". Only PDF files are supported.".

(** [extract_text(file_path)]. *)
Definition extract_text (file_path : pystr) : io pystr :=
  let ext := str_lower (last_item (str_split_on 46%N file_path)) in
  if decide (ext ≠ str "pdf") then raise (ValueError (unsupported ext))
  else
    pages ← PdfReader file_path;
    let text := str_join [10%N] (or_empty <$> pages) in
    mret text.

Record UploadFile := {
  filename : pystr;
  file : list Byte.byte
}.

(** The field [common_repeated_words] of the answer: the mapping, or the
    error text. *)
Inductive words_or_error :=
  | Words (common : gmap pystr nat)
  | ErrorText (s : pystr).

(** The dictionary the handler returns, which FastAPI sends with status
    200.  A handler that ends in [Raise] instead is answered by FastAPI
    with status 500. *)
Record response := {
  filename1 : pystr;
  filename2 : pystr;
  common_repeated_words : words_or_error
}.

(** The body of the [try] block of [count_common_words]. *)
Definition analysis (file_path1 file_path2 : pystr) : io words_or_error :=
  text1 ← extract_text file_path1;
  text2 ← extract_text file_path2;
  mret (Words (count_common_repeated_words text1 text2)).

(** [count_common_words(file1, file2)]. *)
Definition count_common_words (file1 file2 : UploadFile) : io response :=
  let file_path1 := os_path_join UPLOAD_FOLDER (filename file1) in
  let file_path2 := os_path_join UPLOAD_FOLDER (filename file2) in
  save file_path1 (file file1);;
  save file_path2 (file file2);;
  common_repeated_words ←
    try_except (analysis file_path1 file_path2)
      (λ e, mret (ErrorText (str "Error: " ++ exn_str e)));
  os_remove file_path1;;
  os_remove file_path2;;
  mret {| filename1 := filename file1;
         filename2 := filename file2;
         common_repeated_words := common_repeated_words |}.

End server.

(** The extension as the specification words it: what follows the last
    dot, or the whole path when it has no dot; lowercased. *)
Fixpoint after_last (sep : codepoint) (s : pystr) : pystr :=
  match s with
  | [] => []
  | c :: s' =>
    if decide (sep ∈ s') then after_last sep s'
    else if decide (c = sep) then s' else c :: s'
  end.

Definition extension `{U : Unicode} (path : pystr) : pystr :=
  str_lower (after_last 46%N path).

(** A file name that names a file directly inside a folder. *)
Definition plain_name (name : pystr) : Prop :=
  (47%N ∉ name) ∧ (name ∉ [[]; str "."; str ".."]).

(** A host whose working directory holds the folder [uploads] and nothing
    else: only a path [uploads/name], with a plain name, can be created; any
    other path is answered as a missing file or folder.  No file on it is a
    readable PDF. *)
Instance flat_host : Host := {|
  open_error path :=
    if decide (take 8 path = str "uploads/" ∧ plain_name (drop 8 path))
    then None else Some (enoent path);
  read_pdf _ _ := inl (str "EOF marker not found")
|}.

(** ** Vocabulary of the statements about the handler *)

(** Where the handler stores an upload. *)
Definition upload_path (name : pystr) : pystr :=
  os_path_join UPLOAD_FOLDER name.

(** What the [try] statement leaves in [common_repeated_words] for an
    outcome of its body: the mapping, or "Error: " followed by the text of
    the exception. *)
Definition reported (r : result words_or_error) : words_or_error :=
  match r with
  | Ok common => common
  | Raise e => ErrorText (str "Error: " ++ exn_str e)
  end.

(** An upload with the first bytes of a PDF file. *)
Definition upload (name : string) : UploadFile :=
  {| filename := str name;
     file := [Byte.x25; Byte.x50; Byte.x44; Byte.x46] |}.

(** A host on which every path can be created and the reader takes every
    file for a PDF of one page, whose text is the bytes of the file. *)
Definition text_of_bytes (data : list Byte.byte) : pystr :=
  (λ b, N_of_ascii (ascii_of_byte b)) <$> data.

Instance plain_text_host : Host := {|
  open_error _ := None;
  read_pdf fs path :=
    match fs !! path with
    | Some data => inr [Some (text_of_bytes data)]
    | None => inl (enoent path)
    end
|}.

(** An upload with a given content. *)
Definition upload_text (name content : string) : UploadFile :=
  {| filename := str name; file := list_byte_of_string content |}.

(** ** Runs of the two text functions

    The one thing the two text functions leave to the interpreter is the
    order in which a dict hands its entries to a comprehension.  A run of a
    function fixes one such order for each of its comprehensions: any
    arrangement of the entries of the dict.  Nothing else enters a run: no
    global, no file, no clock. *)

(** [{k: v for ... in items if ...}]: the entries are visited in the order
    of [items]; [entry k a] is the value stored for the key [k], if the
    condition holds. *)
Definition comprehension {A} (entry : pystr → A → option nat)
    (items : list (pystr * A)) : gmap pystr nat :=
  foldl (λ acc '(k, a),
           match entry k a with
           | Some v => <[k := v]> acc
           | None => acc
           end) ∅ items.

(** [items] is the entries of [d] in some order. *)
Definition iterates {A} (items : list (pystr * A)) (d : gmap pystr A) : Prop :=
  items ≡ₚ map_to_list d.

(** The entry of the comprehension of [count_repeated_words]:
    [word: count ... if count > 1]. *)
Definition repeated_entry (word : pystr) (count : nat) : option nat :=
  if decide (1 < count) then Some count else None.

(** The entry of the comprehension of [count_common_repeated_words]:
    [word: min(repeated1.get(word, 0), repeated2.get(word, 0)) ...
    if word in repeated2]. *)
Definition common_entry (repeated1 repeated2 : gmap pystr nat)
    (word : pystr) (_ : nat) : option nat :=
  if decide (is_Some (repeated2 !! word))
  then Some (min (dict_get repeated1 word 0) (dict_get repeated2 word 0))
  else None.

Section runs.
Context `{U : Unicode}.

(** A run of [count_repeated_words(text)] that returns [repeated]. *)
Definition repeated_run (text : pystr) (repeated : gmap pystr nat) : Prop :=
  let cleaned := re_sub not_word_nor_space [] (str_lower text) in
  let words := str_split cleaned in
  let counter := Counter words in
  ∃ items,
    iterates items counter
    ∧ repeated = comprehension repeated_entry items.

(** A run of [count_common_repeated_words(text1, text2)] that returns
    [common]. *)
Definition common_run (text1 text2 : pystr) (common : gmap pystr nat) : Prop :=
  ∃ repeated1 repeated2 items,
    repeated_run text1 repeated1
    ∧ repeated_run text2 repeated2
    ∧ iterates items repeated1
    ∧ common = comprehension (common_entry repeated1 repeated2) items.

End runs.

(** * Proofs *)

(** ** The tokenizer *)

Section text_facts.
Context `{U : Unicode}.

Lemma not_word_nor_space_false c :
  not_word_nor_space c = false ↔ word_character c ∨ whitespace c.
Proof.
  unfold not_word_nor_space, re_word, re_space, word_character, whitespace.
  rewrite negb_false_iff, !orb_true_iff, N.eqb_eq. tauto.
Qed.

Lemma re_sub_delete class s :
  re_sub class [] s = filter (λ c, class c = false) s.
Proof.
  induction s as [|c s IH]; [done|]. simpl.
  destruct (class c) eqn:Hc.
  - rewrite filter_cons_False by congruence. apply IH.
  - rewrite filter_cons_True by done. by rewrite IH.
Qed.

Lemma clean_spec s :
  re_sub not_word_nor_space [] s
  = filter (λ c, word_character c ∨ whitespace c) s.
Proof.
  rewrite re_sub_delete. apply list_filter_iff. intros c.
  apply not_word_nor_space_false.
Qed.

Lemma pieces_not_nil s : pieces s ≠ [].
Proof. destruct s as [|c s]; simpl; [done|]. by repeat case_match. Qed.

Lemma emit_filter tok :
  emit tok = filter (λ p : pystr, p ≠ []) [rev tok].
Proof.
  destruct tok as [|c tok]; [done|]. unfold emit.
  rewrite filter_cons_True; [done|]. simpl. by destruct (rev tok).
Qed.

(** The scan of [str.split()] with a pending word [tok] yields the
    non-empty pieces, the first one prefixed by that word. *)
Lemma split_from_pieces tok s :
  split_from tok s
  = filter (λ p : pystr, p ≠ [])
      (match pieces s with
       | p :: ps => (rev tok ++ p) :: ps
       | [] => []
       end).
Proof.
  revert tok. induction s as [|c s IH]; intros tok; simpl.
  - rewrite app_nil_r. apply emit_filter.
  - destruct (isspace c).
    + rewrite IH, app_nil_r, emit_filter. simpl rev.
      pose proof (pieces_not_nil s) as Hne.
      destruct (pieces s) as [|p ps]; [done|]. simpl.
      by rewrite <- filter_app.
    + rewrite IH. pose proof (pieces_not_nil s) as Hne.
      destruct (pieces s) as [|p ps]; [done|]. simpl.
      by rewrite <- app_assoc.
Qed.

Lemma str_split_spec s : str_split s = spec_tokens s.
Proof.
  unfold str_split, spec_tokens. rewrite split_from_pieces.
  pose proof (pieces_not_nil s). by destruct (pieces s).
Qed.

Lemma words_of_spec text :
  words_of text = spec_tokens (spec_normalize text).
Proof. unfold words_of. by rewrite str_split_spec, clean_spec. Qed.

(** ** The counter *)

Lemma occurrences_cons w x ws :
  occurrences w (x :: ws)
  = (if decide (x = w) then 1 else 0) + occurrences w ws.
Proof. unfold occurrences. rewrite filter_cons. by case_decide. Qed.

Lemma occurrences_pos w ws : w ∈ ws ↔ 0 < occurrences w ws.
Proof.
  induction ws as [|x ws IH].
  - split; [by intros ?%elem_of_nil|]. unfold occurrences. simpl. lia.
  - rewrite elem_of_cons, occurrences_cons, IH.
    destruct (decide (x = w)) as [->|Hne]; [|intuition (congruence || lia)].
    split; [lia|by left].
Qed.

Lemma Counter_fold_lookup (m : gmap pystr nat) ws w :
  foldl Counter_add m ws !! w
  = match m !! w with
    | Some k => Some (k + occurrences w ws)
    | None => if decide (w ∈ ws) then Some (occurrences w ws) else None
    end.
Proof.
  revert m. induction ws as [|x ws IH]; intros m; simpl.
  - unfold occurrences. simpl. destruct (m !! w); [f_equal; lia|].
    destruct (decide (w ∈ [])) as [Hin|]; [|done].
    by apply elem_of_nil in Hin.
  - rewrite IH, occurrences_cons. unfold Counter_add, dict_get.
    destruct (decide (x = w)) as [->|Hne].
    + rewrite lookup_insert_eq. destruct (m !! w); [f_equal; lia|].
      destruct (decide (w ∈ w :: ws)) as [|Hout]; [f_equal; lia|].
      destruct Hout. by left.
    + rewrite lookup_insert_ne by done. destruct (m !! w); [done|].
      apply decide_ext. rewrite elem_of_cons. intuition congruence.
Qed.

Lemma Counter_lookup ws w :
  Counter ws !! w
  = if decide (w ∈ ws) then Some (occurrences w ws) else None.
Proof. unfold Counter. by rewrite Counter_fold_lookup, lookup_empty. Qed.

Lemma spec_tally_lookup ws w :
  spec_tally ws !! w
  = if decide (w ∈ ws) then Some (occurrences w ws) else None.
Proof.
  unfold spec_tally. case_decide as Hin.
  - apply elem_of_list_to_map.
    + rewrite <- list_fmap_compose. simpl.
      rewrite list_fmap_id. apply NoDup_remove_dups.
    + apply list_elem_of_fmap. exists w. by rewrite elem_of_remove_dups.
  - apply not_elem_of_list_to_map. rewrite <- list_fmap_compose. simpl.
    by rewrite list_fmap_id, elem_of_remove_dups.
Qed.

Lemma Counter_spec ws : Counter ws = spec_tally ws.
Proof. apply map_eq. intros w. by rewrite Counter_lookup, spec_tally_lookup. Qed.

(** What [count_repeated_words] holds for a word. *)
Lemma count_repeated_words_lookup text w :
  count_repeated_words text !! w
  = if decide (2 ≤ occurrences w (words_of text))
    then Some (occurrences w (words_of text)) else None.
Proof.
  unfold count_repeated_words. fold (words_of text).
  rewrite map_lookup_filter, Counter_lookup.
  pose proof (occurrences_pos w (words_of text)) as Hpos.
  destruct (decide (w ∈ words_of text)) as [Hin|Hout]; simpl.
  - destruct (decide (2 ≤ occurrences w (words_of text))).
    + rewrite option_guard_True; [done|lia].
    + rewrite option_guard_False; [done|lia].
  - rewrite decide_False; [done|]. intros Hle. apply Hout, Hpos. lia.
Qed.

End text_facts.

(** ** ASCII text does not depend on the rest of the Unicode database *)

Section ascii_text.
Context `{U : Unicode}.

Lemma ascii_lower_is_ascii c : is_ascii c → is_ascii (ascii_lower c).
Proof.
  unfold is_ascii, ascii_lower. intros Hc.
  destruct ((65 <=? c)%N && (c <=? 90)%N) eqn:Hup; [|done].
  apply andb_true_iff in Hup as [_ Hle%N.leb_le]. lia.
Qed.

Lemma str_lower_is_ascii s : Forall is_ascii s → Forall is_ascii (str_lower s).
Proof.
  intros Hs. rewrite str_lower_ascii by done. apply Forall_fmap.
  eapply Forall_impl; [exact Hs|]. apply ascii_lower_is_ascii.
Qed.

Lemma not_word_nor_space_ascii c :
  is_ascii c →
  @not_word_nor_space U c = @not_word_nor_space ascii_only c.
Proof.
  intros Hc. unfold not_word_nor_space, re_word, re_space.
  by rewrite isalnum_ascii, isspace_ascii.
Qed.

Lemma re_sub_ascii s :
  Forall is_ascii s →
  re_sub (@not_word_nor_space U) [] s
  = re_sub (@not_word_nor_space ascii_only) [] s.
Proof.
  induction 1 as [|c s Hc _ IH]; [done|]. simpl.
  by rewrite not_word_nor_space_ascii, IH.
Qed.

Lemma re_sub_is_ascii class s :
  Forall is_ascii s → Forall is_ascii (re_sub class [] s).
Proof.
  induction 1 as [|c s Hc _ IH]; simpl; [done|].
  destruct (class c); [done|by constructor].
Qed.

Lemma split_from_ascii tok s :
  Forall is_ascii s → @split_from U tok s = @split_from ascii_only tok s.
Proof.
  intros Hs. revert tok. induction Hs as [|c s Hc _ IH]; intros tok; [done|].
  simpl. rewrite isspace_ascii by done. simpl.
  destruct (ascii_isspace c); by rewrite IH.
Qed.

Lemma words_of_ascii text :
  Forall is_ascii text → @words_of U text = @words_of ascii_only text.
Proof.
  intros Ht. unfold words_of, str_split.
  rewrite split_from_ascii
    by (apply re_sub_is_ascii, str_lower_is_ascii, Ht).
  rewrite re_sub_ascii by (apply str_lower_is_ascii, Ht).
  by rewrite !str_lower_ascii.
Qed.

Lemma count_repeated_words_ascii text :
  Forall is_ascii text →
  @count_repeated_words U text = @count_repeated_words ascii_only text.
Proof.
  intros Ht. unfold count_repeated_words. fold (@words_of U text).
  fold (@words_of ascii_only text). by rewrite words_of_ascii.
Qed.

End ascii_text.

(** Literals of at most 7-bit characters are ASCII. *)
Ltac ascii_literal :=
  apply (bool_decide_unpack _); vm_compute; reflexivity.

(** ** The counter agrees with its description *)

Section claims_text.
Context `{U : Unicode}.

(** C2: [count_repeated_words] computes what the specification describes:
    lowercase the text, drop every character that is neither a word
    character (alphanumeric or underscore) nor whitespace, split on runs of
    whitespace discarding empty tokens, tally each distinct token, keep the
    tokens counted at least twice.  "Cat, cat CAT." gives cat: 3, and
    "a a b" gives a: 2. *)
Theorem count_repeated_words_refines_spec :
  (∀ text, count_repeated_words text = spec_count_repeated_words text)
  ∧ count_repeated_words (str "Cat, cat CAT.") = {[ str "cat" := 3 ]}
  ∧ count_repeated_words (str "a a b") = {[ str "a" := 2 ]}.
Proof.
  split; [|split].
  - intros text. unfold count_repeated_words, spec_count_repeated_words.
    fold (words_of text). rewrite <- words_of_spec, <- Counter_spec.
    apply map_filter_ext. intros w n _. simpl. lia.
  - rewrite count_repeated_words_ascii by ascii_literal.
    vm_compute. reflexivity.
  - rewrite count_repeated_words_ascii by ascii_literal.
    vm_compute. reflexivity.
Qed.

End claims_text.

(** ** The merger *)

Section claims_merge.
Context `{U : Unicode}.

Lemma dict_get_Some (d : gmap pystr nat) key default v :
  d !! key = Some v → dict_get d key default = v.
Proof. unfold dict_get. by intros ->. Qed.

(** What [count_common_repeated_words] holds for a word, in terms of the
    two dictionaries of repeated words. *)
Lemma common_lookup_repeated text1 text2 w :
  count_common_repeated_words text1 text2 !! w
  = match count_repeated_words text1 !! w, count_repeated_words text2 !! w with
    | Some c1, Some c2 => Some (min c1 c2)
    | _, _ => None
    end.
Proof.
  unfold count_common_repeated_words. rewrite map_lookup_imap.
  destruct (count_repeated_words text1 !! w) as [c1|] eqn:H1; [|done].
  simpl. destruct (count_repeated_words text2 !! w) as [c2|] eqn:H2.
  - rewrite decide_True by eauto.
    by rewrite (dict_get_Some _ _ _ c1), (dict_get_Some _ _ _ c2).
  - rewrite decide_False; [done|]. by intros [? ?].
Qed.

(** The same in terms of the occurrences of the word in the two texts. *)
Lemma common_lookup text1 text2 w :
  count_common_repeated_words text1 text2 !! w
  = if decide (2 ≤ occurrences w (words_of text1)
               ∧ 2 ≤ occurrences w (words_of text2))
    then Some (min (occurrences w (words_of text1))
                   (occurrences w (words_of text2)))
    else None.
Proof.
  rewrite common_lookup_repeated, !count_repeated_words_lookup.
  repeat case_decide; try done; tauto.
Qed.

(** C1: the result holds exactly the words that occur at least twice in the
    first text and at least twice in the second, each with the smaller of
    its two counts; a word that occurs exactly once in one of the texts is
    absent, however often it occurs in the other. *)
Theorem common_is_min_of_words_repeated_in_both text1 text2 w :
  (∀ n, count_common_repeated_words text1 text2 !! w = Some n
        ↔ 2 ≤ occurrences w (words_of text1)
          ∧ 2 ≤ occurrences w (words_of text2)
          ∧ n = min (occurrences w (words_of text1))
                    (occurrences w (words_of text2)))
  ∧ (occurrences w (words_of text1) = 1 ∨ occurrences w (words_of text2) = 1
     → count_common_repeated_words text1 text2 !! w = None).
Proof.
  rewrite common_lookup. split.
  - intros n. case_decide; [|split; [done|tauto]].
    split; [intros [= <-]; tauto|]. by intros (_ & _ & ->).
  - intros Honce. rewrite decide_False; [done|]. lia.
Qed.

(** C3: every key of the result is a key of both dictionaries of repeated
    words, with a count of at least 1 in each, and its value exceeds neither
    of these counts. *)
Theorem common_within_both_sources text1 text2 :
  map_Forall (λ w v,
    ∃ c1 c2, count_repeated_words text1 !! w = Some c1
             ∧ count_repeated_words text2 !! w = Some c2
             ∧ 1 ≤ c1 ∧ 1 ≤ c2 ∧ v ≤ c1 ∧ v ≤ c2)
    (count_common_repeated_words text1 text2).
Proof.
  intros w v. rewrite common_lookup_repeated, !count_repeated_words_lookup.
  repeat case_decide; try done. intros [= <-].
  eexists _, _. repeat split; lia.
Qed.

(** C10: every count reported by [count_repeated_words] is at least 2, and
    so is every count reported by [count_common_repeated_words]. *)
Theorem repeated_counts_at_least_two text1 text2 :
  map_Forall (λ _ v, 2 ≤ v) (count_repeated_words text1)
  ∧ map_Forall (λ _ v, 2 ≤ v) (count_common_repeated_words text1 text2).
Proof.
  split; intros w v.
  - rewrite count_repeated_words_lookup. case_decide; [|done].
    by intros [= <-].
  - rewrite common_lookup. case_decide; [|done]. intros [= <-]. lia.
Qed.

(** C9: exchanging the two texts does not change the result. *)
Theorem common_commutative text1 text2 :
  count_common_repeated_words text1 text2
  = count_common_repeated_words text2 text1.
Proof.
  apply map_eq. intros w. rewrite !common_lookup.
  rewrite Nat.min_comm. apply decide_ext. tauto.
Qed.

Lemma count_repeated_words_empty : count_repeated_words [] = ∅.
Proof.
  unfold count_repeated_words.
  rewrite (str_lower_ascii []) by constructor. simpl.
  apply map_filter_empty.
Qed.

(** C4: the empty text is not an error: it has no repeated word, and no
    text has a repeated word in common with it. *)
Theorem empty_text_gives_empty_maps :
  count_repeated_words [] = ∅
  ∧ ∀ text, count_common_repeated_words [] text = ∅
            ∧ count_common_repeated_words text [] = ∅.
Proof.
  split; [apply count_repeated_words_empty|]. intros text.
  split; apply map_eq; intros w;
    rewrite common_lookup_repeated, count_repeated_words_empty,
      lookup_empty; [done|by case_match].
Qed.

End claims_merge.

(** ** Runs do not depend on the order of iteration *)

Section claims_runs.
Context `{U : Unicode}.

(** A comprehension over entries with distinct keys holds, for each key,
    what its entry gives, in whatever order the entries come. *)
Lemma comprehension_fold_lookup {A} (entry : pystr → A → option nat)
    (items : list (pystr * A)) (acc : gmap pystr nat) k :
  NoDup (items.*1) →
  foldl (λ acc '(k, a),
           match entry k a with
           | Some v => <[k := v]> acc
           | None => acc
           end) acc items !! k
  = match (list_to_map items : gmap pystr A) !! k ≫= entry k with
    | Some v => Some v
    | None => acc !! k
    end.
Proof.
  revert acc. induction items as [|[k0 a0] items IH]; intros acc Hnd.
  - simpl. by rewrite lookup_empty.
  - apply NoDup_cons in Hnd as [Hk0 Hnd]. simpl. rewrite IH by done.
    destruct (decide (k0 = k)) as [->|Hne].
    + rewrite lookup_insert_eq.
      rewrite (not_elem_of_list_to_map_1 items k) by done. simpl.
      destruct (entry k a0); [by rewrite lookup_insert_eq|done].
    + rewrite lookup_insert_ne by done.
      destruct (list_to_map items !! k ≫= entry k); [done|].
      destruct (entry k0 a0); [by rewrite lookup_insert_ne|done].
Qed.

Lemma comprehension_lookup {A} (entry : pystr → A → option nat)
    (items : list (pystr * A)) (d : gmap pystr A) k :
  iterates items d → comprehension entry items !! k = d !! k ≫= entry k.
Proof.
  intros Hitems. unfold comprehension.
  assert (NoDup (items.*1)) as Hnd.
  { unfold iterates in Hitems. rewrite Hitems. apply NoDup_fst_map_to_list. }
  rewrite comprehension_fold_lookup, lookup_empty by done.
  rewrite (list_to_map_proper items (map_to_list d)) by done.
  rewrite list_to_map_to_list. by destruct (d !! k ≫= entry k).
Qed.

(** Every run of [count_repeated_words] returns the same dictionary. *)
Lemma repeated_run_result text repeated :
  repeated_run text repeated → repeated = count_repeated_words text.
Proof.
  intros (items & Hitems & ->). apply map_eq. intros w.
  rewrite (comprehension_lookup _ _ _ _ Hitems).
  unfold count_repeated_words. rewrite map_lookup_filter.
  destruct (Counter _ !! w) as [n|]; [|done]. simpl. unfold repeated_entry.
  case_decide; [by rewrite option_guard_True|by rewrite option_guard_False].
Qed.

Lemma common_run_result text1 text2 common :
  common_run text1 text2 common →
  common = count_common_repeated_words text1 text2.
Proof.
  intros (repeated1 & repeated2 & items & Hr1 & Hr2 & Hitems & ->).
  apply repeated_run_result in Hr1 as ->.
  apply repeated_run_result in Hr2 as ->.
  apply map_eq. intros w. rewrite (comprehension_lookup _ _ _ _ Hitems).
  unfold count_common_repeated_words. by rewrite map_lookup_imap.
Qed.

(** Runs exist: the functions do return. *)
Lemma repeated_run_exists text :
  repeated_run text (count_repeated_words text).
Proof.
  assert (∃ r, repeated_run text r) as [r Hr].
  { eexists. unfold repeated_run.
    eexists (map_to_list (Counter _)). split; [|reflexivity].
    unfold iterates. reflexivity. }
  by rewrite <- (repeated_run_result _ _ Hr).
Qed.

Lemma common_run_exists text1 text2 :
  common_run text1 text2 (count_common_repeated_words text1 text2).
Proof.
  assert (∃ c, common_run text1 text2 c) as [c Hc].
  { eexists. eexists (count_repeated_words text1),
      (count_repeated_words text2), (map_to_list (count_repeated_words text1)).
    split; [apply repeated_run_exists|].
    split; [apply repeated_run_exists|].
    split; [|reflexivity]. unfold iterates. reflexivity. }
  by rewrite <- (common_run_result _ _ _ Hc).
Qed.


End claims_runs.


(** ** The file extension *)

Lemma str_split_on_not_nil sep s : str_split_on sep s ≠ [].
Proof. destruct s as [|c s]; simpl; [done|]. by repeat case_match. Qed.

Lemma str_split_on_no_sep sep s : sep ∉ s → str_split_on sep s = [s].
Proof.
  induction s as [|c s IH]; [done|]. rewrite not_elem_of_cons.
  intros [Hne Hs]. simpl. rewrite decide_False by done. by rewrite IH.
Qed.

Lemma str_split_on_sep sep s :
  sep ∈ s → ∃ p q ps, str_split_on sep s = p :: q :: ps.
Proof.
  induction s as [|c s IH]; [by intros ?%elem_of_nil|].
  intros Hin. simpl. destruct (decide (c = sep)) as [->|Hne].
  - pose proof (str_split_on_not_nil sep s).
    destruct (str_split_on sep s) as [|q ps]; [done|]. eauto.
  - apply elem_of_cons in Hin as [?|Hin]; [done|].
    destruct (IH Hin) as (p & q & ps & ->). eauto.
Qed.

Lemma after_last_no_sep sep s : sep ∉ s → after_last sep s = s.
Proof.
  destruct s as [|c s]; [done|]. rewrite not_elem_of_cons.
  intros [Hne Hs]. simpl. by rewrite !decide_False.
Qed.

(** [file_path.split('.')[-1]] is what follows the last dot, or the whole
    path when there is none. *)
Lemma last_item_split sep s :
  last_item (str_split_on sep s) = after_last sep s.
Proof.
  unfold last_item. induction s as [|c s IH]; [done|]. simpl.
  destruct (decide (sep ∈ s)) as [Hin|Hout].
  - rewrite <- IH. destruct (str_split_on_sep sep s Hin) as (p & q & ps & ->).
    by case_decide.
  - rewrite (str_split_on_no_sep sep s Hout).
    by case_decide.
Qed.

Lemma ascii_lower_is_ascii_inv c : is_ascii (ascii_lower c) → is_ascii c.
Proof.
  unfold is_ascii, ascii_lower.
  destruct ((65 <=? c)%N && (c <=? 90)%N) eqn:Hup; [|done]. lia.
Qed.

Section claims_extract.
Context `{U : Unicode} `{H : Host}.

Lemma extract_text_ext file_path :
  str_lower (last_item (str_split_on 46%N file_path)) = extension file_path.
Proof. unfold extension. by rewrite last_item_split. Qed.

(** C5: [extract_text] raises its unsupported-format error exactly when the
    extension of the path (what follows the last dot, or the whole path
    without a dot, lowercased) is not "pdf".  With the extension "pdf", in
    any letter case, it goes on to read the file: the outcome is the
    reader's, the pages joined by line breaks or the reader's error. *)
Theorem extract_text_unsupported_iff_not_pdf file_path fs :
  ((∃ msg, (extract_text file_path fs).2 = Raise (ValueError msg))
   ↔ extension file_path ≠ str "pdf")
  ∧ (extension file_path ≠ str "pdf" →
     extract_text file_path fs
     = (fs, Raise (ValueError (unsupported (extension file_path)))))
  ∧ (extension file_path = str "pdf" →
     extract_text file_path fs
     = match read_pdf fs file_path with
       | inl msg => (fs, Raise (ReaderError msg))
       | inr pages => (fs, Ok (str_join [10%N] (or_empty <$> pages)))
       end)
  ∧ (ascii_lower <$> after_last 46%N file_path = str "pdf" →
     extension file_path = str "pdf").
Proof.
  assert (Hno : extension file_path ≠ str "pdf" →
    extract_text file_path fs
    = (fs, Raise (ValueError (unsupported (extension file_path))))).
  { intros Hext. unfold extract_text. rewrite extract_text_ext.
    by rewrite decide_True. }
  assert (Hyes : extension file_path = str "pdf" →
    extract_text file_path fs
    = match read_pdf fs file_path with
      | inl msg => (fs, Raise (ReaderError msg))
      | inr pages => (fs, Ok (str_join [10%N] (or_empty <$> pages)))
      end).
  { intros Hext. unfold extract_text. rewrite extract_text_ext.
    rewrite decide_False by (by intros []).
    unfold mbind, io_bind, PdfReader. by destruct (read_pdf fs file_path). }
  split; [|split; [done|split; [done|]]].
  - split.
    + intros [msg Hmsg] Hext. rewrite (Hyes Hext) in Hmsg.
      by destruct (read_pdf fs file_path).
    + intros Hext. rewrite (Hno Hext). eauto.
  - intros Hcase. unfold extension. rewrite str_lower_ascii; [done|].
    assert (Forall is_ascii (ascii_lower <$> after_last 46%N file_path))
      as Hall by (rewrite Hcase; ascii_literal).
    rewrite Forall_fmap in Hall. eapply Forall_impl; [exact Hall|].
    intros c. apply ascii_lower_is_ascii_inv.
Qed.

End claims_extract.

Example extension_upper :
  @extension ascii_only (str "uploads/report.v2.PDF") = str "pdf".
Proof. vm_compute. reflexivity. Qed.

Example extension_no_dot :
  @extension ascii_only (str "uploads/pdf") = str "uploads/pdf".
Proof. vm_compute. reflexivity. Qed.

Example extract_text_txt fs :
  @extract_text ascii_only flat_host (str "uploads/notes.txt") fs
  = (fs, Raise (ValueError
       (str "Unsupported file type: txt. Only PDF files are supported."))).
Proof. reflexivity. Qed.

Example extract_text_no_dot fs :
  @extract_text ascii_only flat_host (str "uploads/pdf") fs
  = (fs, Raise (ValueError (str
       "Unsupported file type: uploads/pdf. Only PDF files are supported."))).
Proof. reflexivity. Qed.

Example extract_text_pdf_goes_to_reader fs :
  @extract_text ascii_only flat_host (str "uploads/a.Pdf") fs
  = (fs, Raise (ReaderError (str "EOF marker not found"))).
Proof. reflexivity. Qed.

(** ** The request handler *)

Section handler_facts.
Context `{U : Unicode} `{H : Host}.

(** Extraction and analysis only read the files. *)
Lemma extract_text_folder file_path fs : (extract_text file_path fs).1 = fs.
Proof.
  unfold extract_text. case_decide; [done|].
  unfold mbind, io_bind, PdfReader. by destruct (read_pdf fs file_path).
Qed.

Lemma analysis_folder file_path1 file_path2 fs :
  (analysis file_path1 file_path2 fs).1 = fs.
Proof.
  unfold analysis, mbind, io_bind.
  pose proof (extract_text_folder file_path1 fs) as H1.
  destruct (extract_text file_path1 fs) as [fs1 [text1|e1]];
    simpl in H1; subst fs1; [|done].
  pose proof (extract_text_folder file_path2 fs) as H2.
  by destruct (extract_text file_path2 fs) as [fs2 [text2|e2]].
Qed.

(** The [try] statement never raises. *)
Lemma try_analysis file_path1 file_path2 fs :
  try_except (analysis file_path1 file_path2)
    (λ e, mret (ErrorText (str "Error: " ++ exn_str e))) fs
  = (fs, Ok (reported (analysis file_path1 file_path2 fs).2)).
Proof.
  unfold try_except. pose proof (analysis_folder file_path1 file_path2 fs) as Hfs.
  destruct (analysis file_path1 file_path2 fs) as [fs' [w|e]];
    simpl in Hfs; by subst fs'.
Qed.

(** When both uploads can be stored, under different paths, the handler
    returns its dictionary, with the two filenames and the outcome of the
    analysis, and both files are gone. *)
Lemma count_common_words_returns file1 file2 fs :
  open_error (upload_path (filename file1)) = None →
  open_error (upload_path (filename file2)) = None →
  upload_path (filename file1) ≠ upload_path (filename file2) →
  count_common_words file1 file2 fs
  = (delete (upload_path (filename file2))
       (delete (upload_path (filename file1)) fs),
     Ok {| filename1 := filename file1;
           filename2 := filename file2;
           common_repeated_words :=
             reported
               (analysis (upload_path (filename file1))
                  (upload_path (filename file2))
                  (<[upload_path (filename file2) := file file2]>
                     (<[upload_path (filename file1) := file file1]> fs))).2
        |}).
Proof.
  intros Hopen1 Hopen2 Hne.
  unfold count_common_words. fold (upload_path (filename file1)).
  fold (upload_path (filename file2)).
  unfold mbind at 1 2, io_bind, save. rewrite Hopen1, Hopen2.
  unfold mbind at 1. rewrite try_analysis.
  unfold mbind, os_remove.
  rewrite lookup_insert_ne, lookup_insert_eq by done.
  rewrite lookup_delete_ne, lookup_insert_eq by done.
  by rewrite delete_insert_ne, delete_insert_eq, delete_insert_eq by done.
Qed.

(** After such a request neither upload is left in the folder. *)
Lemma count_common_words_cleans_up file1 file2 fs :
  open_error (upload_path (filename file1)) = None →
  open_error (upload_path (filename file2)) = None →
  upload_path (filename file1) ≠ upload_path (filename file2) →
  (count_common_words file1 file2 fs).1 !! upload_path (filename file1) = None
  ∧ (count_common_words file1 file2 fs).1 !! upload_path (filename file2)
    = None.
Proof.
  intros Hopen1 Hopen2 Hne.
  rewrite count_common_words_returns by done. simpl.
  by rewrite lookup_delete_ne, !lookup_delete_eq.
Qed.

(** An error of the analysis is then answered with the dictionary that
    holds its text. *)
Lemma count_common_words_reports_error file1 file2 fs e :
  open_error (upload_path (filename file1)) = None →
  open_error (upload_path (filename file2)) = None →
  upload_path (filename file1) ≠ upload_path (filename file2) →
  (analysis (upload_path (filename file1)) (upload_path (filename file2))
     (<[upload_path (filename file2) := file file2]>
        (<[upload_path (filename file1) := file file1]> fs))).2 = Raise e →
  (count_common_words file1 file2 fs).2
  = Ok {| filename1 := filename file1;
          filename2 := filename file2;
          common_repeated_words := ErrorText (str "Error: " ++ exn_str e) |}.
Proof.
  intros Hopen1 Hopen2 Hne Hraise.
  rewrite count_common_words_returns by done. simpl. by rewrite Hraise.
Qed.

(** C6, where the code falls short of it: when both uploads carry the same
    filename, the second [os.remove] finds the file already removed and its
    [OSError] leaves the handler, whatever the [try] statement had caught:
    the request is answered with status 500, not with the dictionary that
    holds the error text. *)
Theorem same_filename_request_raises file1 file2 fs :
  filename file2 = filename file1 →
  open_error (upload_path (filename file1)) = None →
  count_common_words file1 file2 fs
  = (delete (upload_path (filename file1)) fs,
     Raise (OSError (enoent (upload_path (filename file1))))).
Proof.
  intros Hsame Hopen.
  unfold count_common_words. rewrite Hsame.
  fold (upload_path (filename file1)).
  unfold mbind at 1 2, io_bind, save. rewrite Hopen.
  unfold mbind at 1. rewrite try_analysis.
  unfold mbind, os_remove.
  rewrite lookup_insert_eq, lookup_delete_eq.
  by rewrite !delete_insert_eq.
Qed.

(** C7, where the code falls short of it: when the second upload cannot be
    stored, the [OSError] of [open] leaves the handler before the [try]
    statement and before the two [os.remove]: the first upload stays in the
    folder. *)
Theorem second_upload_failure_leaves_first file1 file2 fs msg :
  open_error (upload_path (filename file1)) = None →
  open_error (upload_path (filename file2)) = Some msg →
  count_common_words file1 file2 fs
  = (<[upload_path (filename file1) := file file1]> fs, Raise (OSError msg))
  ∧ (count_common_words file1 file2 fs).1 !! upload_path (filename file1)
    = Some (file file1).
Proof.
  intros Hopen1 Hopen2.
  assert (count_common_words file1 file2 fs
          = (<[upload_path (filename file1) := file file1]> fs,
             Raise (OSError msg))) as ->.
  { unfold count_common_words. fold (upload_path (filename file1)).
    fold (upload_path (filename file2)).
    unfold mbind at 1 2, io_bind, save. by rewrite Hopen1, Hopen2. }
  split; [done|]. apply lookup_insert_eq.
Qed.

End handler_facts.

(** The request of C6 that goes wrong: [a.txt] uploaded in both fields.  The
    analysis raises the unsupported-format error, which the [try] statement
    turns into the error text; the handler raises all the same. *)
Example same_filename_analysis_raises :
  (@analysis ascii_only flat_host (str "uploads/a.txt") (str "uploads/a.txt")
     {[ str "uploads/a.txt" := file (upload "a.txt") ]}).2
  = Raise (ValueError
             (str "Unsupported file type: txt. Only PDF files are supported.")).
Proof. vm_compute. reflexivity. Qed.

Lemma same_filename_request_raises_witness :
  @count_common_words ascii_only flat_host (upload "a.txt") (upload "a.txt") ∅
  = (∅, Raise (OSError (str
       "[Errno 2] No such file or directory: 'uploads/a.txt'"))).
Proof.
  etrans.
  - apply (@same_filename_request_raises ascii_only flat_host
             (upload "a.txt") (upload "a.txt") ∅); vm_compute; reflexivity.
  - vm_compute. reflexivity.
Defined.

(** The request of C7 that goes wrong: the second filename names a folder
    that does not exist. *)
Lemma second_upload_failure_leaves_first_witness :
  @count_common_words ascii_only flat_host
    (upload "a.pdf") (upload "nodir/b.pdf") ∅
  = ({[ str "uploads/a.pdf" := [Byte.x25; Byte.x50; Byte.x44; Byte.x46] ]},
     Raise (OSError (str
       "[Errno 2] No such file or directory: 'uploads/nodir/b.pdf'")))
  ∧ (@count_common_words ascii_only flat_host
       (upload "a.pdf") (upload "nodir/b.pdf") ∅).1 !! str "uploads/a.pdf"
    = Some [Byte.x25; Byte.x50; Byte.x44; Byte.x46].
Proof.
  apply (@second_upload_failure_leaves_first ascii_only flat_host
           (upload "a.pdf") (upload "nodir/b.pdf") ∅
           (str "[Errno 2] No such file or directory: 'uploads/nodir/b.pdf'"));
    vm_compute; reflexivity.
Defined.

(** A request that goes well, for comparison: two files that are no PDF
    files, under different names.  The answer carries the names and the
    reader's error, and the folder is empty again. *)
Example unreadable_pdf_request :
  @count_common_words ascii_only flat_host (upload "a.PDF") (upload "b.pdf") ∅
  = (∅, Ok {| filename1 := str "a.PDF";
              filename2 := str "b.pdf";
              common_repeated_words :=
                ErrorText (str "Error: EOF marker not found") |}).
Proof. vm_compute. reflexivity. Qed.

(** ** The examples of the specification *)

Example merge_min_semantics :
  @count_common_repeated_words ascii_only
    (str "x x x y y") (str "x z x z x x x")
  = {[ str "x" := 3 ]}.
Proof. vm_compute. reflexivity. Qed.

Example disjoint_vocabularies :
  @count_common_repeated_words ascii_only (str "aa aa") (str "bb bb") = ∅.
Proof. vm_compute. reflexivity. Qed.

Example end_to_end :
  @count_common_repeated_words ascii_only
    (str "the cat sat on the mat the cat ran")
    (str "the dog sat near the mat and the dog ran")
  = {[ str "the" := 3 ]}.
Proof. vm_compute. reflexivity. Qed.

(** * Further properties of the code *)

(** ** How [count_repeated_words] reads a text *)

Section tokenizer_properties.
Context `{U : Unicode}.

Lemma count_repeated_words_of_words text text' :
  words_of text = words_of text' →
  count_repeated_words text = count_repeated_words text'.
Proof.
  intros Hw. unfold count_repeated_words. fold (words_of text).
  fold (words_of text'). by rewrite Hw.
Qed.

(** On ASCII text the words are those of the ASCII scan of the text with
    its capitals lowered. *)
Lemma words_of_ascii_scan text :
  Forall is_ascii text →
  words_of text
  = @split_from ascii_only []
      (re_sub (@not_word_nor_space ascii_only) [] (ascii_lower <$> text)).
Proof. intros Ht. by rewrite words_of_ascii. Qed.

Lemma re_sub_app class s1 s2 :
  re_sub class [] (s1 ++ s2) = re_sub class [] s1 ++ re_sub class [] s2.
Proof.
  induction s1 as [|c s1 IH]; [done|]. simpl.
  destruct (class c); simpl; by rewrite IH.
Qed.

(** A whitespace character ends the word before it and starts a new scan. *)
Lemma split_from_space tok s1 c s2 :
  isspace c = true →
  split_from tok (s1 ++ c :: s2) = split_from tok s1 ++ split_from [] s2.
Proof.
  intros Hc. revert tok. induction s1 as [|d s1 IH]; intros tok; simpl.
  - by rewrite Hc.
  - destruct (isspace d); [|apply IH]. by rewrite IH, app_assoc.
Qed.

(** X1: letter case does not matter: two ASCII texts that are equal once
    their capitals are lowered have the same repeated words. *)
Theorem count_repeated_words_ignores_case text text' :
  Forall is_ascii text → Forall is_ascii text' →
  ascii_lower <$> text = ascii_lower <$> text' →
  count_repeated_words text = count_repeated_words text'.
Proof.
  intros Ht Ht' Hlow. apply count_repeated_words_of_words.
  by rewrite !words_of_ascii_scan, Hlow.
Qed.

Lemma ascii_lower_not_alnum c :
  ascii_isalnum c = false → ascii_lower c = c.
Proof.
  unfold ascii_isalnum, ascii_lower. intros Hc.
  destruct ((65 <=? c)%N && (c <=? 90)%N); [|done].
  by rewrite orb_true_r in Hc.
Qed.

(** X2: in an ASCII text, an ASCII character that is neither alphanumeric,
    nor the underscore, nor whitespace is deleted, not replaced by a blank:
    the ASCII characters before and after it are read as if it were absent,
    so that the two halves of a word it divides count as one word. *)
Theorem count_repeated_words_deletes_punctuation text1 c text2 :
  Forall is_ascii text1 → Forall is_ascii text2 → is_ascii c →
  ascii_isalnum c = false → c ≠ 95%N → ascii_isspace c = false →
  count_repeated_words (text1 ++ c :: text2)
  = count_repeated_words (text1 ++ text2).
Proof.
  intros Ht1 Ht2 Hc Halnum Hunder Hspace.
  apply count_repeated_words_of_words.
  rewrite !words_of_ascii_scan
    by (apply Forall_app; split; [done|]; try constructor; done).
  f_equal. rewrite !fmap_app, fmap_cons, !re_sub_app. f_equal.
  rewrite (ascii_lower_not_alnum c Halnum). simpl.
  unfold not_word_nor_space at 1, re_word, re_space. simpl.
  rewrite Halnum, Hspace. by apply N.eqb_neq in Hunder as ->.
Qed.

(** Every word that the scan yields is non-empty and made of the pending
    characters and of the characters of the text that are no whitespace. *)
Lemma split_from_words (P : codepoint → Prop) tok s w :
  Forall P tok →
  Forall (λ c, isspace c = false → P c) s →
  w ∈ split_from tok s → w ≠ [] ∧ Forall P w.
Proof.
  revert tok. induction s as [|c s IH]; intros tok Htok Hs; simpl.
  - destruct tok as [|d tok]; simpl; [by intros ?%elem_of_nil|].
    intros ->%list_elem_of_singleton. split.
    + intros Hnil%(f_equal length). rewrite length_app in Hnil.
      simpl in Hnil. lia.
    + apply Forall_app. split; [|by apply Forall_inv in Htok; constructor].
      apply Forall_rev. by apply Forall_inv_tail in Htok.
  - apply Forall_cons in Hs as [Hc Hs]. destruct (isspace c) eqn:Hsp.
    + rewrite elem_of_app. intros [Hw|Hw]; [|by apply (IH [])].
      destruct tok as [|d tok]; simpl in Hw; [by apply elem_of_nil in Hw|].
      apply list_elem_of_singleton in Hw as ->. split.
      * intros Hnil%(f_equal length). rewrite length_app in Hnil.
        simpl in Hnil. lia.
      * apply Forall_app. split; [|by apply Forall_inv in Htok; constructor].
        apply Forall_rev. by apply Forall_inv_tail in Htok.
    + apply IH; [|done]. constructor; [by apply Hc|done].
Qed.

Lemma re_sub_kept class s :
  Forall (λ c, class c = false) (re_sub class [] s).
Proof.
  induction s as [|c s IH]; simpl; [done|].
  destruct (class c) eqn:Hc; [done|by constructor].
Qed.

Lemma words_of_word text w :
  w ∈ words_of text →
  w ≠ [] ∧ Forall (λ c, re_word c = true ∧ isspace c = false) w.
Proof.
  unfold words_of, str_split. apply split_from_words; [done|].
  eapply Forall_impl; [apply re_sub_kept|]. intros c Hc Hsp. simpl in *.
  split; [|done]. unfold not_word_nor_space, re_space in Hc.
  rewrite Hsp, orb_false_r in Hc. by destruct (re_word c).
Qed.

(** X3: every key of the result is a word: it is not empty, and each of its
    characters is alphanumeric or the underscore, and no whitespace. *)
Theorem count_repeated_words_keys_are_words text :
  map_Forall (λ w _,
    w ≠ [] ∧ Forall (λ c, re_word c = true ∧ isspace c = false) w)
    (count_repeated_words text).
Proof.
  intros w n. rewrite count_repeated_words_lookup.
  case_decide as Hocc; [|done]. intros _.
  apply (words_of_word text). apply occurrences_pos. lia.
Qed.

End tokenizer_properties.

Lemma count_repeated_words_ignores_case_witness :
  @count_repeated_words ascii_only (str "The cat THE Cat")
  = @count_repeated_words ascii_only (str "tHE CAT the cat").
Proof.
  apply (@count_repeated_words_ignores_case ascii_only);
    [ascii_literal | ascii_literal | vm_compute; reflexivity].
Defined.

Lemma count_repeated_words_deletes_punctuation_witness :
  @count_repeated_words ascii_only (str "don" ++ 39%N :: str "t say dont")
  = @count_repeated_words ascii_only (str "don" ++ str "t say dont").
Proof.
  apply (@count_repeated_words_deletes_punctuation ascii_only);
    [ascii_literal | ascii_literal | vm_compute; reflexivity
    | reflexivity | done | reflexivity].
Defined.

(** ** Pages, order and size *)

Section counting_properties.
Context `{U : Unicode}.

Lemma str_join_is_ascii (pages : list pystr) :
  Forall (Forall is_ascii) pages → Forall is_ascii (str_join [10%N] pages).
Proof.
  induction 1 as [|p ps Hp Hps IH]; [done|]. simpl.
  destruct ps as [|q ps]; [done|].
  apply Forall_app. split; [done|]. by constructor.
Qed.

(** The ASCII scan of pages joined by line breaks: a line break separates
    words, so no word reaches across two pages. *)
Lemma ascii_scan_join (pages : list pystr) :
  @split_from ascii_only []
    (re_sub (@not_word_nor_space ascii_only) []
       (ascii_lower <$> str_join [10%N] pages))
  = concat ((λ p, @split_from ascii_only []
                    (re_sub (@not_word_nor_space ascii_only) []
                       (ascii_lower <$> p))) <$> pages).
Proof.
  set (scan := λ p : pystr,
     @split_from ascii_only []
       (re_sub (@not_word_nor_space ascii_only) [] (ascii_lower <$> p))).
  change (scan (str_join [10%N] pages) = concat (scan <$> pages)).
  induction pages as [|p ps IH]; [done|].
  destruct ps as [|q ps]; [simpl; by rewrite app_nil_r|].
  rewrite fmap_cons.
  change (concat (scan p :: (scan <$> q :: ps)))
    with (scan p ++ concat (scan <$> q :: ps)).
  rewrite <- IH.
  change (str_join [10%N] (p :: q :: ps))
    with (p ++ 10%N :: str_join [10%N] (q :: ps)).
  unfold scan. rewrite fmap_app, re_sub_app, fmap_cons.
  change (re_sub (@not_word_nor_space ascii_only) []
            (ascii_lower 10%N :: ?s))
    with (10%N :: re_sub (@not_word_nor_space ascii_only) [] s).
  by rewrite (@split_from_space ascii_only).
Qed.

Lemma words_of_join (pages : list pystr) :
  Forall (Forall is_ascii) pages →
  words_of (str_join [10%N] pages) = concat (words_of <$> pages).
Proof.
  intros Hp. rewrite words_of_ascii_scan by by apply str_join_is_ascii.
  rewrite ascii_scan_join. f_equal. apply Forall_fmap_ext.
  eapply Forall_impl; [exact Hp|]. intros p Hascii. simpl.
  by rewrite words_of_ascii_scan.
Qed.

(** X4: the words of the text that [extract_text] builds from ASCII pages
    are the words of the first page, then those of the second, and so on:
    joining pages with a line break never glues the last word of a page to
    the first word of the next. *)
Theorem words_of_extracted_pages (pages : list (option pystr)) :
  Forall (Forall is_ascii) (or_empty <$> pages) →
  words_of (str_join [10%N] (or_empty <$> pages))
  = concat ((λ page, words_of (or_empty page)) <$> pages).
Proof.
  intros Hp. rewrite words_of_join by done.
  by rewrite <- list_fmap_compose.
Qed.

Lemma words_of_nil : words_of [] = [].
Proof. unfold words_of. by rewrite (str_lower_ascii []) by constructor. Qed.

(** X5: a document all of whose pages have no text, as the pages of a
    scanned PDF, where [page.extract_text()] returns [None] or the empty
    string, has no repeated word: the result is empty, not an error. *)
Theorem pages_without_text_give_empty_map (pages : list (option pystr)) :
  Forall (λ page, or_empty page = []) pages →
  count_repeated_words (str_join [10%N] (or_empty <$> pages)) = ∅.
Proof.
  intros Hp.
  assert (words_of (str_join [10%N] (or_empty <$> pages)) = []) as Hw.
  { rewrite words_of_join.
    - rewrite <- list_fmap_compose.
      induction Hp as [|page ps Hpage _ IH]; [done|]. rewrite fmap_cons.
      change (concat (?x :: ?l)) with (x ++ concat l).
      rewrite IH, app_nil_r. simpl. rewrite Hpage. apply words_of_nil.
    - apply Forall_fmap. eapply Forall_impl; [exact Hp|].
      intros page Hpage. simpl. by rewrite Hpage. }
  unfold count_repeated_words. fold (words_of (str_join [10%N] (or_empty <$> pages))).
  rewrite Hw. apply map_filter_empty.
Qed.

Lemma occurrences_Permutation w ws ws' :
  ws ≡ₚ ws' → occurrences w ws = occurrences w ws'.
Proof.
  intros Hperm. unfold occurrences. apply Permutation_length.
  by apply filter_Permutation.
Qed.

(** X6: only the multiset of the words matters: two texts whose words are
    the same up to their order have the same repeated words. *)
Theorem count_repeated_words_order_independent text text' :
  words_of text ≡ₚ words_of text' →
  count_repeated_words text = count_repeated_words text'.
Proof.
  intros Hperm. apply map_eq. intros w.
  rewrite !count_repeated_words_lookup.
  by rewrite (occurrences_Permutation w _ _ Hperm).
Qed.

(** X7: a text has all its repeated words in common with itself, with
    their own counts. *)
Theorem common_with_itself text :
  count_common_repeated_words text text = count_repeated_words text.
Proof.
  apply map_eq. intros w. rewrite common_lookup_repeated.
  destruct (count_repeated_words text !! w) as [n|]; [|done].
  by rewrite Nat.min_id.
Qed.

Lemma occurrences_split k ws :
  length ws = occurrences k ws + length (filter (λ x, x ≠ k) ws).
Proof.
  unfold occurrences. rewrite <- length_app.
  apply Permutation_length. symmetry.
  apply (filter_app_complement (λ x, x = k)).
Qed.

Lemma occurrences_filter_ne k k' ws :
  k' ≠ k → occurrences k' (filter (λ x, x ≠ k) ws) = occurrences k' ws.
Proof.
  intros Hne. unfold occurrences. rewrite list_filter_filter.
  f_equal. apply list_filter_iff. intros x. intuition congruence.
Qed.

(** Distinct words that each occur at least twice take up two places each. *)
Lemma repeated_words_bound (ks : list pystr) ws :
  NoDup ks → Forall (λ k, 2 ≤ occurrences k ws) ks →
  2 * length ks ≤ length ws.
Proof.
  intros Hnd. revert ws. induction Hnd as [|k ks Hk Hnd IH]; intros ws Hocc.
  - simpl. lia.
  - apply Forall_cons in Hocc as [Hk2 Hocc].
    rewrite (occurrences_split k ws). simpl.
    specialize (IH (filter (λ x, x ≠ k) ws)).
    assert (2 * length ks ≤ length (filter (λ x : pystr, x ≠ k) ws)); [|lia].
    apply IH. apply Forall_forall. intros k' Hk'.
    rewrite occurrences_filter_ne by (by intros ->).
    by apply (proj1 (Forall_forall _ _) Hocc).
Qed.

(** X8: the result has at most half as many entries as the text has
    words. *)
Theorem count_repeated_words_size text :
  2 * size (count_repeated_words text) ≤ length (words_of text).
Proof.
  rewrite <- length_map_to_list.
  rewrite <- (length_fmap fst (map_to_list (count_repeated_words text))).
  apply repeated_words_bound; [apply NoDup_fst_map_to_list|].
  apply Forall_forall. intros k [[k' n] [-> Hkn]]%list_elem_of_fmap.
  apply elem_of_map_to_list in Hkn. simpl.
  rewrite count_repeated_words_lookup in Hkn. by case_decide.
Qed.

End counting_properties.

Lemma words_of_extracted_pages_witness :
  @words_of ascii_only
    (str_join [10%N] (or_empty <$> [Some (str "the end"); None; Some (str "The")]))
  = [str "the"; str "end"; str "the"].
Proof.
  etrans.
  - apply (@words_of_extracted_pages ascii_only
             [Some (str "the end"); None; Some (str "The")]).
    ascii_literal.
  - vm_compute. reflexivity.
Defined.

Lemma pages_without_text_give_empty_map_witness :
  @count_repeated_words ascii_only
    (str_join [10%N] (or_empty <$> [None; Some []; None])) = ∅.
Proof.
  apply (@pages_without_text_give_empty_map ascii_only [None; Some []; None]).
  repeat constructor.
Defined.

Lemma count_repeated_words_order_independent_witness :
  @count_repeated_words ascii_only (str "a b a c b")
  = @count_repeated_words ascii_only (str "b a c b a").
Proof.
  apply (@count_repeated_words_order_independent ascii_only).
  vm_compute.
  apply (Permutation_cons_append [_; _; _; _]).
Defined.

(** ** The outcomes of a request *)

Example or_empty_cases :
  or_empty None = [] ∧ or_empty (Some []) = []
  ∧ or_empty (Some (str "page")) = str "page".
Proof. done. Qed.

Example os_path_join_cases :
  os_path_join (str "uploads") (str "a.pdf") = str "uploads/a.pdf"
  ∧ os_path_join (str "uploads") (str "/tmp/a.pdf") = str "/tmp/a.pdf"
  ∧ os_path_join (str "uploads/") (str "a.pdf") = str "uploads/a.pdf"
  ∧ os_path_join [] (str "a.pdf") = str "a.pdf".
Proof. vm_compute. done. Qed.

Lemma upload_path_absolute rest : upload_path (47%N :: rest) = 47%N :: rest.
Proof. done. Qed.

Lemma upload_path_relative name :
  (∀ rest, name ≠ 47%N :: rest) → upload_path name = str "uploads/" ++ name.
Proof.
  intros Hrel. unfold upload_path, os_path_join.
  destruct name as [|c name]; [done|].
  destruct (decide (c = 47%N)) as [->|Hc]; [by destruct (Hrel name)|].
  destruct c as [|p]; [done|].
  do 6 (try (destruct p as [p|p|]; try done)).
Qed.

(** Two uploads are stored at the same path only if they carry the same
    filename. *)
Lemma upload_path_inj name1 name2 :
  upload_path name1 = upload_path name2 → name1 = name2.
Proof.
  assert (Hcases : ∀ name,
    (∃ rest, name = 47%N :: rest) ∨ (∀ rest, name ≠ 47%N :: rest)).
  { intros [|c name]; [by right|].
    destruct (decide (c = 47%N)) as [->|Hc]; [left; eauto|].
    right. by intros rest [= ->]. }
  destruct (Hcases name1) as [[r1 ->]|Hrel1], (Hcases name2) as [[r2 ->]|Hrel2].
  - by rewrite !upload_path_absolute.
  - rewrite upload_path_absolute, (upload_path_relative _ Hrel2). done.
  - rewrite upload_path_absolute, (upload_path_relative _ Hrel1). done.
  - rewrite (upload_path_relative _ Hrel1), (upload_path_relative _ Hrel2).
    apply app_inv_head.
Qed.

Section handler_outcomes.
Context `{U : Unicode} `{H : Host}.

(** The four ways a request ends. *)
Lemma count_common_words_eval file1 file2 fs :
  count_common_words file1 file2 fs
  = match open_error (upload_path (filename file1)) with
    | Some msg => (fs, Raise (OSError msg))
    | None =>
      match open_error (upload_path (filename file2)) with
      | Some msg =>
        (<[upload_path (filename file1) := file file1]> fs,
         Raise (OSError msg))
      | None =>
        if decide (filename file1 = filename file2)
        then (delete (upload_path (filename file1)) fs,
              Raise (OSError (enoent (upload_path (filename file1)))))
        else (delete (upload_path (filename file2))
                (delete (upload_path (filename file1)) fs),
              Ok {| filename1 := filename file1;
                    filename2 := filename file2;
                    common_repeated_words :=
                      reported
                        (analysis (upload_path (filename file1))
                           (upload_path (filename file2))
                           (<[upload_path (filename file2) := file file2]>
                              (<[upload_path (filename file1) := file file1]>
                                 fs))).2 |})
      end
    end.
Proof.
  destruct (open_error (upload_path (filename file1))) as [msg1|] eqn:Hopen1.
  { unfold count_common_words. fold (upload_path (filename file1)).
    unfold mbind at 1, io_bind, save. by rewrite Hopen1. }
  destruct (open_error (upload_path (filename file2))) as [msg2|] eqn:Hopen2.
  { unfold count_common_words. fold (upload_path (filename file1)).
    fold (upload_path (filename file2)).
    unfold mbind at 1 2, io_bind, save. by rewrite Hopen1, Hopen2. }
  case_decide as Hname.
  - unfold count_common_words. rewrite <- Hname.
    fold (upload_path (filename file1)).
    unfold mbind at 1 2, io_bind, save. rewrite Hopen1.
    unfold mbind at 1. rewrite try_analysis.
    unfold mbind, os_remove.
    rewrite lookup_insert_eq, lookup_delete_eq.
    by rewrite !delete_insert_eq.
  - apply count_common_words_returns; [done..|].
    intros Hpath. by apply Hname, upload_path_inj.
Qed.

(** In this model of the files, the handler returns its dictionary exactly
    when both uploads could be stored and their filenames differ. *)
Lemma count_common_words_returns_iff file1 file2 fs :
  (∃ r, (count_common_words file1 file2 fs).2 = Ok r)
  ↔ open_error (upload_path (filename file1)) = None
    ∧ open_error (upload_path (filename file2)) = None
    ∧ filename file1 ≠ filename file2.
Proof.
  rewrite count_common_words_eval.
  destruct (open_error (upload_path (filename file1)));
    [split; [by intros [? ?]|by intros (? & _)]|].
  destruct (open_error (upload_path (filename file2)));
    [split; [by intros [? ?]|by intros (_ & ? & _)]|].
  case_decide; [split; [by intros [? ?]|by intros (_ & _ & ?)]|].
  split; [done|]. intros _. simpl. eauto.
Qed.

(** X9: the handler returns its dictionary only if both uploads could be
    stored and their filenames differ: a request that uploads two files
    under one name never gets the dictionary. *)
Theorem count_common_words_returns_only_if file1 file2 fs r :
  (count_common_words file1 file2 fs).2 = Ok r →
  open_error (upload_path (filename file1)) = None
  ∧ open_error (upload_path (filename file2)) = None
  ∧ filename file1 ≠ filename file2.
Proof.
  intros Hr. apply (proj1 (count_common_words_returns_iff file1 file2 fs)).
  eauto.
Qed.

(** X10: no exception raised by [extract_text] or by the PDF reader leaves
    the handler: an exception that leaves it is neither the [ValueError] of
    [extract_text] nor an error of the reader. *)
Theorem analysis_errors_never_escape file1 file2 fs e :
  (count_common_words file1 file2 fs).2 = Raise e →
  (∀ msg, e ≠ ValueError msg) ∧ (∀ msg, e ≠ ReaderError msg).
Proof.
  rewrite count_common_words_eval.
  repeat case_match; simpl; intros [= <-]; by split.
Qed.

(** X12: when the handler returns, the answer carries the two filenames as
    they were uploaded, and no file is left at either upload path, not even
    one that was there before the request. *)
Theorem count_common_words_returned file1 file2 fs r :
  (count_common_words file1 file2 fs).2 = Ok r →
  filename1 r = filename file1 ∧ filename2 r = filename file2
  ∧ (count_common_words file1 file2 fs).1 !! upload_path (filename file1) = None
  ∧ (count_common_words file1 file2 fs).1 !! upload_path (filename file2) = None.
Proof.
  rewrite count_common_words_eval.
  repeat case_match; simpl; try done. intros [= <-]. simpl.
  split; [done|]. split; [done|].
  destruct (decide (upload_path (filename file1) = upload_path (filename file2)))
    as [Heq|Hne].
  - by rewrite <- Heq, !lookup_delete_eq.
  - by rewrite lookup_delete_ne, !lookup_delete_eq.
Qed.

(** X13: when the first upload cannot be stored, the handler raises the
    error of [open] and the folder is as it was. *)
Theorem first_upload_failure_changes_nothing file1 file2 fs msg :
  open_error (upload_path (filename file1)) = Some msg →
  count_common_words file1 file2 fs = (fs, Raise (OSError msg)).
Proof. intros Hopen. by rewrite count_common_words_eval, Hopen. Qed.

End handler_outcomes.

(** ** What the answer says *)

Section handler_answers.
Context `{U : Unicode} `{H : Host}.

Lemma extract_text_eval file_path fs :
  extract_text file_path fs
  = if decide (extension file_path ≠ str "pdf")
    then (fs, Raise (ValueError (unsupported (extension file_path))))
    else match read_pdf fs file_path with
         | inl msg => (fs, Raise (ReaderError msg))
         | inr pages => (fs, Ok (str_join [10%N] (or_empty <$> pages)))
         end.
Proof.
  unfold extract_text. rewrite extract_text_ext. case_decide; [done|].
  unfold mbind, io_bind, PdfReader. by destruct (read_pdf fs file_path).
Qed.

(** What a returned answer holds: the outcome of the [try] statement on
    the folder with both uploads stored. *)
Lemma returned_answer file1 file2 fs r :
  (count_common_words file1 file2 fs).2 = Ok r →
  common_repeated_words r
  = reported
      (analysis (upload_path (filename file1)) (upload_path (filename file2))
         (<[upload_path (filename file2) := file file2]>
            (<[upload_path (filename file1) := file file1]> fs))).2.
Proof.
  rewrite count_common_words_eval.
  repeat case_match; simpl; try done. by intros [= <-].
Qed.

(** X14: when the handler returns and the first path has not the extension
    pdf, the answer names that extension as unsupported, whatever the
    second file is: the second file is not looked at. *)
Theorem unsupported_first_file_is_reported file1 file2 fs r :
  (count_common_words file1 file2 fs).2 = Ok r →
  extension (upload_path (filename file1)) ≠ str "pdf" →
  common_repeated_words r
  = ErrorText
      (str "Error: Unsupported file type: "
       ++ extension (upload_path (filename file1))
       ++ str ". Only PDF files are supported.").
Proof.
  intros Hr Hext. rewrite (returned_answer _ _ _ _ Hr).
  unfold analysis, mbind, io_bind. rewrite extract_text_eval.
  by rewrite decide_True by done.
Qed.

(** X15: when the handler returns, the first path has the extension pdf
    and the reader fails on the first file, the answer is "Error: "
    followed by the reader's own message. *)
Theorem unreadable_first_file_is_reported file1 file2 fs r msg :
  (count_common_words file1 file2 fs).2 = Ok r →
  extension (upload_path (filename file1)) = str "pdf" →
  read_pdf
    (<[upload_path (filename file2) := file file2]>
       (<[upload_path (filename file1) := file file1]> fs))
    (upload_path (filename file1)) = inl msg →
  common_repeated_words r = ErrorText (str "Error: " ++ msg).
Proof.
  intros Hr Hext Hread. rewrite (returned_answer _ _ _ _ Hr).
  unfold analysis, mbind, io_bind. rewrite extract_text_eval.
  rewrite decide_False by (by intros []). by rewrite Hread.
Qed.

(** X16: when the handler returns, both paths have the extension pdf and
    the reader gives the pages of both files, the answer holds the common
    repeated words of the two texts, each text being the pages of a file
    joined by line breaks, a page without text counting as empty. *)
Theorem readable_files_are_compared file1 file2 fs r pages1 pages2 :
  (count_common_words file1 file2 fs).2 = Ok r →
  extension (upload_path (filename file1)) = str "pdf" →
  extension (upload_path (filename file2)) = str "pdf" →
  read_pdf
    (<[upload_path (filename file2) := file file2]>
       (<[upload_path (filename file1) := file file1]> fs))
    (upload_path (filename file1)) = inr pages1 →
  read_pdf
    (<[upload_path (filename file2) := file file2]>
       (<[upload_path (filename file1) := file file1]> fs))
    (upload_path (filename file2)) = inr pages2 →
  common_repeated_words r
  = Words (count_common_repeated_words
             (str_join [10%N] (or_empty <$> pages1))
             (str_join [10%N] (or_empty <$> pages2))).
Proof.
  intros Hr Hext1 Hext2 Hread1 Hread2. rewrite (returned_answer _ _ _ _ Hr).
  unfold analysis, mbind, io_bind.
  rewrite extract_text_eval, decide_False, Hread1 by (by intros []).
  by rewrite extract_text_eval, decide_False, Hread2 by (by intros []).
Qed.

Lemma upload_path_cases name :
  upload_path name = name ∧ (∃ rest, name = 47%N :: rest)
  ∨ upload_path name = str "uploads/" ++ name.
Proof.
  destruct name as [|c name]; [by right|].
  destruct (decide (c = 47%N)) as [->|Hc]; [left; eauto|].
  right. apply upload_path_relative. by intros rest [= ->].
Qed.

(** X17: an upload whose ASCII filename has no dot is refused as
    unsupported, also when it is called pdf: without a dot the whole path,
    folder included, is taken for the extension. *)
Theorem filename_without_dot_is_unsupported name fs :
  Forall is_ascii name → 46%N ∉ name →
  extract_text (upload_path name) fs
  = (fs, Raise (ValueError
       (str "Unsupported file type: " ++ (ascii_lower <$> upload_path name)
        ++ str ". Only PDF files are supported."))).
Proof.
  intros Hascii Hdot.
  assert (Forall is_ascii (upload_path name) ∧ (46%N ∉ upload_path name)
          ∧ ascii_lower <$> upload_path name ≠ str "pdf")
    as (Hpath & Hnodot & Hne).
  { destruct (upload_path_cases name) as [[-> [rest ->]]| ->].
    - split; [done|]. split; [done|]. by intros [=].
    - split; [apply Forall_app; split; [ascii_literal|done]|].
      split.
      + rewrite not_elem_of_app. split; [|done].
        apply (bool_decide_unpack _). vm_compute. reflexivity.
      + intros Heq%(f_equal length).
        rewrite length_fmap, length_app in Heq. simpl in Heq. lia. }
  assert (extension (upload_path name) = ascii_lower <$> upload_path name)
    as Hext.
  { unfold extension. by rewrite after_last_no_sep, str_lower_ascii. }
  by rewrite extract_text_eval, Hext, decide_True by done.
Qed.

End handler_answers.

(** ** The properties above on requests *)

Lemma count_common_words_returns_only_if_witness :
  @open_error flat_host (upload_path (str "a.txt")) = None
  ∧ @open_error flat_host (upload_path (str "b.txt")) = None
  ∧ str "a.txt" ≠ str "b.txt".
Proof.
  apply (@count_common_words_returns_only_if ascii_only flat_host
           (upload "a.txt") (upload "b.txt") ∅
           {| filename1 := str "a.txt";
              filename2 := str "b.txt";
              common_repeated_words :=
                ErrorText (str
                  "Error: Unsupported file type: txt. Only PDF files are supported.")
           |}).
  vm_compute. reflexivity.
Defined.

Lemma analysis_errors_never_escape_witness :
  (∀ msg,
     OSError (str "[Errno 2] No such file or directory: 'uploads/a.txt'")
     ≠ ValueError msg)
  ∧ (∀ msg,
       OSError (str "[Errno 2] No such file or directory: 'uploads/a.txt'")
       ≠ ReaderError msg).
Proof.
  apply (@analysis_errors_never_escape ascii_only flat_host
           (upload "a.txt") (upload "a.txt") ∅).
  vm_compute. reflexivity.
Defined.

Lemma count_common_words_returned_witness :
  (@count_common_words ascii_only flat_host (upload "a.txt") (upload "b.txt")
     {[ str "uploads/a.txt" := [Byte.x25] ]}).1 !! str "uploads/a.txt" = None.
Proof.
  apply (@count_common_words_returned ascii_only flat_host
           (upload "a.txt") (upload "b.txt")
           {[ str "uploads/a.txt" := [Byte.x25] ]}
           {| filename1 := str "a.txt";
              filename2 := str "b.txt";
              common_repeated_words :=
                ErrorText (str
                  "Error: Unsupported file type: txt. Only PDF files are supported.")
           |}).
  vm_compute. reflexivity.
Defined.

Lemma first_upload_failure_changes_nothing_witness :
  @count_common_words ascii_only flat_host
    (upload "x/y.pdf") (upload "b.pdf") {[ str "uploads/keep.pdf" := [Byte.x25] ]}
  = ({[ str "uploads/keep.pdf" := [Byte.x25] ]},
     Raise (OSError (str
       "[Errno 2] No such file or directory: 'uploads/x/y.pdf'"))).
Proof.
  apply (@first_upload_failure_changes_nothing ascii_only flat_host
           (upload "x/y.pdf") (upload "b.pdf")).
  vm_compute. reflexivity.
Defined.

Lemma unsupported_first_file_is_reported_witness :
  ErrorText (str
    "Error: Unsupported file type: txt. Only PDF files are supported.")
  = ErrorText
      (str "Error: Unsupported file type: "
       ++ @extension ascii_only (upload_path (str "notes.TXT"))
       ++ str ". Only PDF files are supported.").
Proof.
  apply (@unsupported_first_file_is_reported ascii_only flat_host
           (upload "notes.TXT") (upload "b.pdf") ∅
           {| filename1 := str "notes.TXT";
              filename2 := str "b.pdf";
              common_repeated_words :=
                ErrorText (str
                  "Error: Unsupported file type: txt. Only PDF files are supported.")
           |}); by vm_compute.
Defined.

Lemma unreadable_first_file_is_reported_witness :
  ErrorText (str "Error: EOF marker not found")
  = ErrorText (str "Error: " ++ str "EOF marker not found").
Proof.
  apply (@unreadable_first_file_is_reported ascii_only flat_host
           (upload "a.pdf") (upload "b.pdf") ∅
           {| filename1 := str "a.pdf";
              filename2 := str "b.pdf";
              common_repeated_words :=
                ErrorText (str "Error: EOF marker not found") |});
    by vm_compute.
Defined.

Lemma readable_files_are_compared_witness :
  Words {[ str "the" := 2 ]}
  = Words (@count_common_repeated_words ascii_only
             (str_join [10%N] (or_empty <$> [Some (str "The cat, the hat.")]))
             (str_join [10%N]
                (or_empty <$> [Some (str "the dog - the log - the fog")]))).
Proof.
  apply (@readable_files_are_compared ascii_only plain_text_host
           (upload_text "a.pdf" "The cat, the hat.")
           (upload_text "b.PDF" "the dog - the log - the fog") ∅
           {| filename1 := str "a.pdf";
              filename2 := str "b.PDF";
              common_repeated_words := Words {[ str "the" := 2 ]} |});
    by vm_compute.
Defined.

Lemma filename_without_dot_is_unsupported_witness :
  @extract_text ascii_only flat_host (upload_path (str "pdf")) ∅
  = (∅, Raise (ValueError (str
       "Unsupported file type: uploads/pdf. Only PDF files are supported."))).
Proof.
  apply (@filename_without_dot_is_unsupported ascii_only flat_host
           (str "pdf") ∅); apply (bool_decide_unpack _); by vm_compute.
Defined.

(** ** Counts add up across whitespace *)

Section concatenation.
Context `{U : Unicode}.

Lemma ascii_lower_space c : ascii_isspace c = true → ascii_lower c = c.
Proof.
  unfold ascii_isspace, ascii_lower. intros Hc.
  destruct ((65 <=? c)%N && (c <=? 90)%N) eqn:Hup; [|done].
  apply andb_true_iff in Hup as [Hlo%N.leb_le Hhi%N.leb_le].
  apply orb_true_iff in Hc as [Hc|Hc];
    apply andb_true_iff in Hc as [_ Hle%N.leb_le]; lia.
Qed.

Lemma words_of_app_space text1 c text2 :
  Forall is_ascii text1 → Forall is_ascii text2 → is_ascii c →
  ascii_isspace c = true →
  words_of (text1 ++ c :: text2) = words_of text1 ++ words_of text2.
Proof.
  intros Ht1 Ht2 Hc Hspace.
  rewrite !words_of_ascii_scan
    by (try apply Forall_app; try split; try constructor; done).
  rewrite fmap_app, fmap_cons, re_sub_app, (ascii_lower_space c Hspace).
  assert (re_sub (@not_word_nor_space ascii_only) []
            (c :: (ascii_lower <$> text2))
          = c :: re_sub (@not_word_nor_space ascii_only) []
                   (ascii_lower <$> text2)) as ->.
  { simpl. unfold not_word_nor_space at 1, re_space. simpl.
    by rewrite Hspace, orb_true_r. }
  by apply (@split_from_space ascii_only).
Qed.

(** X18: in two ASCII texts joined by a whitespace character each word
    occurs as often as in the two texts together, so that a word found once
    in each part is a repeated word of the whole. *)
Theorem count_repeated_words_app text1 c text2 w :
  Forall is_ascii text1 → Forall is_ascii text2 → is_ascii c →
  ascii_isspace c = true →
  count_repeated_words (text1 ++ c :: text2) !! w
  = if decide (2 ≤ occurrences w (words_of text1)
                   + occurrences w (words_of text2))
    then Some (occurrences w (words_of text1)
               + occurrences w (words_of text2))
    else None.
Proof.
  intros Ht1 Ht2 Hc Hspace.
  rewrite count_repeated_words_lookup, words_of_app_space by done.
  unfold occurrences. by rewrite filter_app, length_app.
Qed.

End concatenation.

Lemma count_repeated_words_app_witness :
  @count_repeated_words ascii_only (str "one two" ++ 10%N :: str "two three")
    !! str "two"
  = Some 2.
Proof.
  etrans.
  - apply (@count_repeated_words_app ascii_only
             (str "one two") 10%N (str "two three") (str "two"));
      [ascii_literal | ascii_literal | by vm_compute | reflexivity].
  - vm_compute. reflexivity.
Defined.
